(** * Token lifecycle of the JWT tutorial server

    A shallow embedding of the two Express servers of the repository:
    [server.js] (module [Server]) and the earlier, shorter variant kept
    under [unnamed/part_000] (module [Variant]).

    The handlers call the [jsonwebtoken] package, which is not part of the
    repository.  A handler is therefore a small program over two events,
    [JwtSign] and [JwtVerify]; [run] interprets the events with any
    implementation [JwtLib] of the package at a given clock value. *)

From Stdlib Require Import String Ascii List ZArith Bool Lia.
Import ListNotations.

Set Warnings "-register-all".

Local Open Scope string_scope.
Local Open Scope Z_scope.

(** ** JavaScript values *)

(** The values that travel through the handlers: what [JSON.parse] yields
    for a request body, plus [undefined].  Numbers are never inspected by
    the code; they are kept as integers. *)
Inductive jsval : Type :=
| VUndefined
| VNull
| VBool (b : bool)
| VNum (n : Z)
| VStr (s : string)
| VArr (items : list jsval)
| VObj (props : list (string * jsval)).

(** [v == null]: true for [null] and [undefined] only. *)
Definition loose_null (v : jsval) : bool :=
  match v with
  | VUndefined | VNull => true
  | _ => false
  end.

(** [v === null]. *)
Definition strict_null (v : jsval) : bool :=
  match v with
  | VNull => true
  | _ => false
  end.

(** [s === v] for a string [s]: only an equal string is strictly equal. *)
Definition strict_eq_str (s : string) (v : jsval) : bool :=
  match v with
  | VStr t => String.eqb s t
  | _ => false
  end.

(** [o[k]] on the property list of an object; a missing key reads as
    [undefined]. *)
Fixpoint lookup (k : string) (props : list (string * jsval)) : jsval :=
  match props with
  | [] => VUndefined
  | (k', v) :: rest => if String.eqb k k' then v else lookup k rest
  end.

(** [v.k] for the keys the handlers read ([username], [token]): a
    [TypeError] ([None]) on [undefined] and [null], the property on an
    object, [undefined] on every other value. *)
Definition get_prop (v : jsval) (k : string) : option jsval :=
  match v with
  | VUndefined | VNull => None
  | VObj props => Some (lookup k props)
  | _ => Some VUndefined
  end.

(** [s.split(sep)] for a one-character separator. *)
Fixpoint split (sep : ascii) (s : string) : list string :=
  match s with
  | EmptyString => [EmptyString]
  | String c rest =>
      if Ascii.eqb c sep then EmptyString :: split sep rest
      else match split sep rest with
           | [] => [String c EmptyString]
           | w :: ws => String c w :: ws
           end
  end.

(** [a[i]]: [undefined] past the end of the array. *)
Definition index_str (a : list string) (i : nat) : jsval :=
  match nth_error a i with
  | Some s => VStr s
  | None => VUndefined
  end.

(** ** Requests, responses, outcomes *)

(** [authorization] is [req.headers['authorization']] (absent: [None]);
    [body] holds the properties of [req.body] as [express.json()] leaves
    it, an object, empty when the request carries no JSON object; [user]
    is [req.user], [undefined] until the middleware sets it. *)
Record request : Type := mkRequest {
  authorization : option string;
  body : list (string * jsval);
  user : jsval
}.

Definition set_user (req : request) (data : jsval) : request :=
  {| authorization := authorization req; body := body req; user := data |}.

Inductive payload : Type :=
| Text (s : string)
| Json (v : jsval).

Record response : Type := mkResponse {
  status : nat;
  content : payload
}.

(** [res.status(code).send(text)] and [res.json(v)]. *)
Definition send (code : nat) (text : string) : response :=
  {| status := code; content := Text text |}.

Definition json (v : jsval) : response :=
  {| status := 200%nat; content := Json v |}.

(** What a middleware or handler did with a request. *)
Inductive outcome : Type :=
| Sent (r : response)
| Next (req : request)
| Threw
| Pending.

(** The status of the response, when one was sent. *)
Definition status_of (o : outcome) : option nat :=
  match o with
  | Sent r => Some (status r)
  | _ => None
  end.

(** Two outcomes that differ once the responses are spelled out. *)
Ltac distinct_outcomes := unfold send, json; discriminate.

(** ** The jsonwebtoken events *)

Inductive VerifyError : Type :=
| Expired
| BadSignature
| MalformedToken.

Inductive verify_result : Type :=
| VOk (data : jsval)
| VErr (e : VerifyError).

(** A handler: it returns, or asks for [jwt.sign(payload, secret, {expiresIn})]
    or [jwt.verify(token, secret)] and goes on with the answer.
    [expiresIn] is in seconds; the source writes ['15s']. *)
Inductive io (A : Type) : Type :=
| Ret (a : A)
| JwtSign (claims : jsval) (secret : string) (expiresIn : option Z)
          (k : string -> io A)
| JwtVerify (token : jsval) (secret : string) (k : verify_result -> io A).

Arguments Ret {A} a.
Arguments JwtSign {A} claims secret expiresIn k.
Arguments JwtVerify {A} token secret k.

Fixpoint bind {A B : Type} (m : io A) (f : A -> io B) : io B :=
  match m with
  | Ret a => f a
  | JwtSign c s e k => JwtSign c s e (fun t => bind (k t) f)
  | JwtVerify t s k => JwtVerify t s (fun r => bind (k r) f)
  end.

Notation "x <- m ;; f" := (bind m (fun x => f))
  (at level 61, m at next level, right associativity).

(** An implementation of the package.  Both calls read the clock; the
    result of [jwt.sign] is a string that depends on nothing but the
    claims, the key, the expiry and the time of the call. *)
Record JwtLib : Type := mkJwtLib {
  jwt_sign : jsval -> string -> option Z -> Z -> string;
  jwt_verify : jsval -> string -> Z -> verify_result
}.

Fixpoint run {A : Type} (L : JwtLib) (now : Z) (m : io A) : A :=
  match m with
  | Ret a => a
  | JwtSign c s e k => run L now (k (jwt_sign L c s e now))
  | JwtVerify t s k => run L now (k (jwt_verify L t s now))
  end.

(** The number of [jwt.verify] calls a handler makes under [L] at [now]. *)
Fixpoint verify_calls {A : Type} (L : JwtLib) (now : Z) (m : io A) : nat :=
  match m with
  | Ret _ => 0%nat
  | JwtSign c s e k => verify_calls L now (k (jwt_sign L c s e now))
  | JwtVerify t s k => S (verify_calls L now (k (jwt_verify L t s now)))
  end.

(** [process.env]: the two secrets, both taken to be set (the .env file
    is outside the repository). *)
Record env : Type := mkEnv {
  ACCESS_TOKEN_SECRET : string;
  REFRESH_TOKEN_SECRET : string
}.

Record post : Type := mkPost {
  username : string;
  title : string
}.

Definition post_json (p : post) : jsval :=
  VObj [("username", VStr (username p)); ("title", VStr (title p))].

(** [authHeader && authHeader.split(' ')[1]]: a falsy header ([undefined]
    or the empty string) is the value of the conjunction. *)
Definition header_token (authHeader : option string) : jsval :=
  match authHeader with
  | None => VUndefined
  | Some EmptyString => VStr EmptyString
  | Some h => index_str (split " " h) 1
  end.

(** ** server.js *)

Module Server.

(** The array that mirrors the database. *)
Definition posts : list post :=
  [ mkPost "Kyle" "Post 1"; mkPost "Jim" "Post 2"; mkPost "Ishan" "Post 3" ].

(** The three uses of [refreshTokenList]: [push], [includes] and the
    [filter] of the logout route.  The list only ever holds strings (the
    results of [jwt.sign]), so a value that is not a string is in no list
    and filters nothing out. *)
Definition register (refreshTokenList : list string) (refreshToken : string)
  : list string :=
  refreshTokenList ++ [refreshToken].

Definition isActive (refreshTokenList : list string) (refreshToken : jsval)
  : bool :=
  existsb (fun token => strict_eq_str token refreshToken) refreshTokenList.

Definition revoke (refreshTokenList : list string) (refreshToken : jsval)
  : list string :=
  filter (fun token => negb (strict_eq_str token refreshToken))
         refreshTokenList.

(** The authentication middleware. *)
Definition authenticateToken (E : env) (req : request) : io outcome :=
  let authHeader := authorization req in
  let token := header_token authHeader in
  if loose_null token then
    Ret (Sent (send 401 "You did not send a token with your request"))
  else
    JwtVerify token (ACCESS_TOKEN_SECRET E) (fun r =>
      match r with
      | VErr _ =>
          Ret (Sent (send 403 "You have a JWT token, but the token is no longer valid so you no longer have access"))
      | VOk data => Ret (Next (set_user req data))
      end).

Definition generateAccessToken (E : env) (userObject : jsval) : io string :=
  JwtSign userObject (ACCESS_TOKEN_SECRET E) (Some 15) Ret.

(** [posts.filter(post => post.username === req.user.username)]: the
    callback reads [req.user.username] once per element. *)
Fixpoint filter_posts (u : jsval) (ps : list post) : option (list post) :=
  match ps with
  | [] => Some []
  | p :: rest =>
      match get_prop u "username" with
      | None => None
      | Some name =>
          match filter_posts u rest with
          | None => None
          | Some kept =>
              Some (if strict_eq_str (username p) name then p :: kept
                    else kept)
          end
      end
  end.

Definition posts_handler (req : request) : outcome :=
  match filter_posts (user req) posts with
  | None => Threw
  | Some mine => Sent (json (VArr (map post_json mine)))
  end.

(** [app.get('/posts', authenticateToken, handler)]. *)
Definition get_posts (E : env) (req : request) : io outcome :=
  o <- authenticateToken E req ;;
  match o with
  | Next req' => Ret (posts_handler req')
  | other => Ret other
  end.

(** [app.post('/login', ...)]. *)
Definition post_login (E : env) (refreshTokenList : list string)
    (req : request) : io (list string * outcome) :=
  let username := lookup "username" (body req) in
  let userObject := VObj [("username", username)] in
  accessToken <- generateAccessToken E userObject ;;
  refreshToken <- JwtSign userObject (REFRESH_TOKEN_SECRET E) None Ret ;;
  Ret (register refreshTokenList refreshToken,
       Sent (json (VObj [("accessToken", VStr accessToken);
                         ("refreshToken", VStr refreshToken)]))).

(** [app.post('/createtoken', ...)]. *)
Definition post_createtoken (E : env) (refreshTokenList : list string)
    (req : request) : io (list string * outcome) :=
  let refreshToken := lookup "token" (body req) in
  if loose_null refreshToken then
    Ret (refreshTokenList,
         Sent (send 401 "Refresh token not sent in POST request"))
  else if negb (isActive refreshTokenList refreshToken) then
    Ret (refreshTokenList,
         Sent (send 403 "Refresh token that was sent is not a valid refresh token"))
  else
    JwtVerify refreshToken (REFRESH_TOKEN_SECRET E) (fun r =>
      match r with
      | VErr _ =>
          Ret (refreshTokenList,
               Sent (send 403 "Error occured during verification of refresh token"))
      | VOk data =>
          match get_prop data "username" with
          | None => Ret (refreshTokenList, Threw)
          | Some name =>
              accessToken <-
                generateAccessToken E (VObj [("username", name)]) ;;
              Ret (refreshTokenList,
                   Sent (json (VObj [("accessToken", VStr accessToken)])))
          end
      end).

(** [app.delete('/logout', ...)]. *)
Definition delete_logout (refreshTokenList : list string) (req : request)
  : list string * outcome :=
  (revoke refreshTokenList (lookup "token" (body req)),
   Sent (send 204 "Log out successful, associated JWT(s) deleted")).

End Server.

(** ** unnamed/part_000 *)

Module Variant.

Definition posts : list post :=
  [ mkPost "Kyle" "Post 1"; mkPost "Jim" "Post 2" ].

(** [app.get('/post', ...)]: no middleware is attached. *)
Definition get_post (req : request) : outcome :=
  Sent (json (VArr (map post_json posts))).

(** The middleware of the variant: the test is [token === null], and
    [jwt.verify] is called without a callback, so it throws on a failure
    and its result is dropped on a success; neither a response nor
    [next()] follows. *)
Definition authenticateToken (E : env) (req : request) : io outcome :=
  let authHeader := authorization req in
  let token := header_token authHeader in
  if strict_null token then Ret (Sent (send 400 "Error"))
  else
    JwtVerify token (ACCESS_TOKEN_SECRET E) (fun r =>
      match r with
      | VErr _ => Ret Threw
      | VOk _ => Ret Pending
      end).

(** [app.post('/login', ...)] of the variant. *)
Definition post_login (E : env) (req : request) : io outcome :=
  let username := lookup "username" (body req) in
  let userObject := VObj [("name", username)] in
  accessToken <- JwtSign userObject (ACCESS_TOKEN_SECRET E) None Ret ;;
  Ret (Sent (json (VObj [("accessToken", VStr accessToken)]))).

End Variant.

(** ** The Token Codec of the specification *)

Module TokenCodec.

(** How a token is laid out as a string: the three parts of a token
    (claims, expiration, integrity tag) and back. *)
Record format : Type := mkFormat {
  serialize : jsval -> option Z -> string -> string;
  parse : string -> option (jsval * option Z * string)
}.

(** Parsing gives back what was serialized. *)
Definition lossless (F : format) : Prop :=
  forall claims expiration tag,
    parse F (serialize F claims expiration tag)
    = Some (claims, expiration, tag).

Section Codec.

Variable F : format.

(** The integrity tag of a payload (claims and expiration) under a
    secret key. *)
Variable integrity_tag : string -> jsval -> option Z -> string.

(** Modelled from the spec: [sign(claims, secretKey, options)] of the
    Token Codec (the jsonwebtoken package is not under src/).  The token
    is serialized(Claims + expiration + integrity tag); with
    [expiresIn] absent it carries no expiration, otherwise the
    expiration is the issue time plus the duration. *)
Definition sign (claims : jsval) (secretKey : string)
    (expiresIn : option Z) (now : Z) : string :=
  let expiration := option_map (fun d => now + d) expiresIn in
  serialize F claims expiration (integrity_tag secretKey claims expiration).

(** Modelled from the spec: [verify(token, secretKey)] of the Token
    Codec (the jsonwebtoken package is not under src/).  It decodes the
    token ([MalformedToken] when it does not parse), recomputes the
    integrity tag with [secretKey] and compares ([BadSignature] on a
    mismatch), fails with [Expired] when an expiration is present and
    has passed relative to the current time, and otherwise returns the
    claims. *)
Definition verify (token : string) (secretKey : string) (now : Z)
  : verify_result :=
  match parse F token with
  | None => VErr MalformedToken
  | Some (claims, expiration, tag) =>
      if String.eqb (integrity_tag secretKey claims expiration) tag then
        match expiration with
        | Some deadline =>
            if deadline <? now then VErr Expired else VOk claims
        | None => VOk claims
        end
      else VErr BadSignature
  end.

(** The codec as an implementation of the package: a token that is not
    a string does not parse. *)
Definition lib : JwtLib :=
  {| jwt_sign := sign;
     jwt_verify := fun token secretKey now =>
       match token with
       | VStr t => verify t secretKey now
       | _ => VErr MalformedToken
       end |}.

End Codec.

End TokenCodec.

(** ** A concrete token format

    One lossless [TokenCodec.format], used to run the handlers on concrete
    requests.  Every part is written with a mark in front, so that a
    reader knows where it ends: a string as ["+c"] for each character [c]
    and a final ["."]; an integer as its sign and its binary digits, least
    significant first. *)

Module Wire.

Fixpoint enc_str (s : string) : string :=
  match s with
  | EmptyString => "."
  | String c rest => String "+" (String c (enc_str rest))
  end.

Fixpoint dec_str (s : string) : option (string * string) :=
  match s with
  | EmptyString => None
  | String m rest =>
      if Ascii.eqb m "." then Some (EmptyString, rest)
      else if Ascii.eqb m "+" then
        match rest with
        | EmptyString => None
        | String c rest' =>
            match dec_str rest' with
            | Some (w, out) => Some (String c w, out)
            | None => None
            end
        end
      else None
  end.

Fixpoint enc_pos (p : positive) : string :=
  match p with
  | xH => "."
  | xO q => String "0" (enc_pos q)
  | xI q => String "1" (enc_pos q)
  end.

Fixpoint dec_pos (s : string) : option (positive * string) :=
  match s with
  | EmptyString => None
  | String m rest =>
      if Ascii.eqb m "." then Some (xH, rest)
      else if Ascii.eqb m "0" then
        match dec_pos rest with
        | Some (q, out) => Some (xO q, out)
        | None => None
        end
      else if Ascii.eqb m "1" then
        match dec_pos rest with
        | Some (q, out) => Some (xI q, out)
        | None => None
        end
      else None
  end.

Definition enc_Z (z : Z) : string :=
  match z with
  | Z0 => "z"
  | Zpos p => String "p" (enc_pos p)
  | Zneg p => String "m" (enc_pos p)
  end.

Definition dec_Z (s : string) : option (Z * string) :=
  match s with
  | EmptyString => None
  | String m rest =>
      if Ascii.eqb m "z" then Some (0, rest)
      else if Ascii.eqb m "p" then
        match dec_pos rest with
        | Some (p, out) => Some (Zpos p, out)
        | None => None
        end
      else if Ascii.eqb m "m" then
        match dec_pos rest with
        | Some (p, out) => Some (Zneg p, out)
        | None => None
        end
      else None
  end.

Definition enc_exp (e : option Z) : string :=
  match e with
  | None => "n"
  | Some z => String "e" (enc_Z z)
  end.

Definition dec_exp (s : string) : option (option Z * string) :=
  match s with
  | EmptyString => None
  | String m rest =>
      if Ascii.eqb m "n" then Some (None, rest)
      else if Ascii.eqb m "e" then
        match dec_Z rest with
        | Some (z, out) => Some (Some z, out)
        | None => None
        end
      else None
  end.

Fixpoint enc_val (v : jsval) : string :=
  match v with
  | VUndefined => "u"
  | VNull => "n"
  | VBool true => "t"
  | VBool false => "f"
  | VNum z => String "i" (enc_Z z)
  | VStr s => String "s" (enc_str s)
  | VArr items =>
      String "a"
        ((fix enc_items (l : list jsval) : string :=
            match l with
            | [] => "]"
            | x :: l' => String "," (enc_val x ++ enc_items l')
            end) items)
  | VObj props =>
      String "o"
        ((fix enc_props (l : list (string * jsval)) : string :=
            match l with
            | [] => "}"
            | (k, x) :: l' =>
                String "," (enc_str k ++ enc_val x ++ enc_props l')
            end) props)
  end.

Fixpoint enc_items (l : list jsval) : string :=
  match l with
  | [] => "]"
  | x :: l' => String "," (enc_val x ++ enc_items l')
  end.

Fixpoint enc_props (l : list (string * jsval)) : string :=
  match l with
  | [] => "}"
  | (k, x) :: l' => String "," (enc_str k ++ enc_val x ++ enc_props l')
  end.

(** The decoder of values; [fuel] bounds the nesting and the number of
    elements read. *)
Fixpoint dec_val (fuel : nat) (s : string) : option (jsval * string) :=
  match fuel with
  | O => None
  | S fuel' =>
      match s with
      | EmptyString => None
      | String m rest =>
          if Ascii.eqb m "u" then Some (VUndefined, rest)
          else if Ascii.eqb m "n" then Some (VNull, rest)
          else if Ascii.eqb m "t" then Some (VBool true, rest)
          else if Ascii.eqb m "f" then Some (VBool false, rest)
          else if Ascii.eqb m "i" then
            match dec_Z rest with
            | Some (z, out) => Some (VNum z, out)
            | None => None
            end
          else if Ascii.eqb m "s" then
            match dec_str rest with
            | Some (w, out) => Some (VStr w, out)
            | None => None
            end
          else if Ascii.eqb m "a" then
            match dec_items fuel' rest with
            | Some (l, out) => Some (VArr l, out)
            | None => None
            end
          else if Ascii.eqb m "o" then
            match dec_props fuel' rest with
            | Some (l, out) => Some (VObj l, out)
            | None => None
            end
          else None
      end
  end
with dec_items (fuel : nat) (s : string) : option (list jsval * string) :=
  match fuel with
  | O => None
  | S fuel' =>
      match s with
      | EmptyString => None
      | String m rest =>
          if Ascii.eqb m "]" then Some ([], rest)
          else if Ascii.eqb m "," then
            match dec_val fuel' rest with
            | Some (x, mid) =>
                match dec_items fuel' mid with
                | Some (l, out) => Some (x :: l, out)
                | None => None
                end
            | None => None
            end
          else None
      end
  end
with dec_props (fuel : nat) (s : string)
  : option (list (string * jsval) * string) :=
  match fuel with
  | O => None
  | S fuel' =>
      match s with
      | EmptyString => None
      | String m rest =>
          if Ascii.eqb m "}" then Some ([], rest)
          else if Ascii.eqb m "," then
            match dec_str rest with
            | Some (k, mid) =>
                match dec_val fuel' mid with
                | Some (x, mid') =>
                    match dec_props fuel' mid' with
                    | Some (l, out) => Some ((k, x) :: l, out)
                    | None => None
                    end
                | None => None
                end
            | None => None
            end
          else None
      end
  end.

(** The length of its encoding is fuel enough to read a value back. *)
Definition fits (v : jsval) : Prop :=
  forall fuel rest,
    (String.length (enc_val v) <= fuel)%nat ->
    dec_val fuel (enc_val v ++ rest) = Some (v, rest).

(** A token: the claims, the expiration, the tag. *)
Definition serialize (claims : jsval) (expiration : option Z) (tag : string)
  : string :=
  enc_val claims ++ enc_exp expiration ++ enc_str tag.

Definition parse (token : string) : option (jsval * option Z * string) :=
  match dec_val (String.length token) token with
  | Some (claims, mid) =>
      match dec_exp mid with
      | Some (expiration, mid') =>
          match dec_str mid' with
          | Some (tag, EmptyString) => Some (claims, expiration, tag)
          | _ => None
          end
      | None => None
      end
  | None => None
  end.

Definition wire : TokenCodec.format :=
  {| TokenCodec.serialize := serialize; TokenCodec.parse := parse |}.

(** A keyed checksum, standing for the integrity tag: a polynomial hash
    of the key followed by the serialized payload, in binary. *)
Fixpoint checksum (acc : Z) (s : string) : Z :=
  match s with
  | EmptyString => acc
  | String c rest =>
      checksum ((acc * 31 + Z.of_nat (nat_of_ascii c)) mod 4294967296) rest
  end.

Definition integrity_tag (secretKey : string) (claims : jsval)
    (expiration : option Z) : string :=
  enc_Z (checksum 7 (secretKey ++ enc_val claims ++ enc_exp expiration)).

(** The package, played by the codec of the specification over this
    format. *)
Definition jwt : JwtLib := TokenCodec.lib wire integrity_tag.

Definition process_env : env :=
  {| ACCESS_TOKEN_SECRET := "access-secret";
     REFRESH_TOKEN_SECRET := "refresh-secret" |}.

End Wire.

(** ** Requests of the reference scenario *)

Module Scenario.

Definition with_header (h : string) : request :=
  {| authorization := Some h; body := []; user := VUndefined |}.

Definition bearer (token : string) : request :=
  with_header ("Bearer " ++ token).

Definition no_header : request :=
  {| authorization := None; body := []; user := VUndefined |}.

Definition with_body (props : list (string * jsval)) : request :=
  {| authorization := None; body := props; user := VUndefined |}.

Definition login_as (name : string) : request :=
  with_body [("username", VStr name)].

Definition with_token (token : string) : request :=
  with_body [("token", VStr token)].

Definition kyle : jsval := VObj [("username", VStr "Kyle")].

(** The tokens a login of Kyle at time 100 yields under [Wire.jwt]. *)
Definition kyle_access : string :=
  jwt_sign Wire.jwt kyle (ACCESS_TOKEN_SECRET Wire.process_env) (Some 15) 100.

Definition kyle_refresh : string :=
  jwt_sign Wire.jwt kyle (REFRESH_TOKEN_SECRET Wire.process_env) None 100.

End Scenario.

(** The header form of the specification, [Bearer <token>]: the scheme
    prefix followed by a token that is not empty. *)
Definition bearer_form (h : string) : bool :=
  String.prefix "Bearer " h && Nat.ltb 7 (String.length h).

(** [c] occurs in [s]. *)
Fixpoint contains (c : ascii) (s : string) : bool :=
  match s with
  | EmptyString => false
  | String x rest => Ascii.eqb x c || contains c rest
  end.

(** ** The route table of server.js *)

Module App.
Import Server.

(** The four routes registered on [app]. *)
Inductive route : Type :=
| GET_posts
| POST_login
| POST_createtoken
| DELETE_logout.

(** One request: the route handler runs on the current
    [refreshTokenList] and leaves the next one. *)
Definition handle (E : env) (refreshTokenList : list string) (r : route)
    (req : request) : io (list string * outcome) :=
  match r with
  | GET_posts => o <- get_posts E req ;; Ret (refreshTokenList, o)
  | POST_login => post_login E refreshTokenList req
  | POST_createtoken => post_createtoken E refreshTokenList req
  | DELETE_logout => Ret (delete_logout refreshTokenList req)
  end.

(** A sequence of requests, each with the clock value at which it is
    served; the list after the last one. *)
Fixpoint serve (E : env) (L : JwtLib) (refreshTokenList : list string)
    (trace : list (Z * route * request)) : list string :=
  match trace with
  | [] => refreshTokenList
  | (now, r, req) :: rest =>
      serve E L (fst (run L now (handle E refreshTokenList r req))) rest
  end.

(** The refresh token that a login with this body gets at [now]. *)
Definition issued (E : env) (L : JwtLib) (now : Z) (req : request)
  : string :=
  jwt_sign L (VObj [("username", lookup "username" (body req))])
    (REFRESH_TOKEN_SECRET E) None now.

End App.

(** * Properties *)

(** ** Strings *)

Lemma append_assoc (a b c : string) : ((a ++ b) ++ c = a ++ (b ++ c))%string.
Proof.
  induction a as [|x a IH]; simpl; [reflexivity | now rewrite IH].
Qed.

Lemma length_append (a b : string) :
  String.length (a ++ b) = (String.length a + String.length b)%nat.
Proof.
  induction a as [|x a IH]; simpl; [reflexivity | now rewrite IH].
Qed.

(** ** The concrete format is lossless *)

Module WireFacts.
Import Wire.

Lemma dec_enc_str (s rest : string) :
  dec_str (enc_str s ++ rest) = Some (s, rest).
Proof.
  induction s as [|c s IH]; simpl; [reflexivity | now rewrite IH].
Qed.

Lemma dec_enc_pos (p : positive) (rest : string) :
  dec_pos (enc_pos p ++ rest) = Some (p, rest).
Proof.
  induction p as [q IH|q IH|]; simpl; try rewrite IH; reflexivity.
Qed.

Lemma dec_enc_Z (z : Z) (rest : string) :
  dec_Z (enc_Z z ++ rest) = Some (z, rest).
Proof.
  destruct z; simpl; try rewrite dec_enc_pos; reflexivity.
Qed.

Lemma dec_enc_exp (e : option Z) (rest : string) :
  dec_exp (enc_exp e ++ rest) = Some (e, rest).
Proof.
  destruct e; simpl; try rewrite dec_enc_Z; reflexivity.
Qed.

Lemma enc_val_arr (l : list jsval) :
  enc_val (VArr l) = String "a" (enc_items l).
Proof. reflexivity. Qed.

Lemma enc_val_obj (l : list (string * jsval)) :
  enc_val (VObj l) = String "o" (enc_props l).
Proof. reflexivity. Qed.

Lemma dec_enc_items (l : list jsval) :
  Forall fits l ->
  forall fuel rest,
    (String.length (enc_items l) <= fuel)%nat ->
    dec_items fuel (enc_items l ++ rest) = Some (l, rest).
Proof.
  induction 1 as [|x l Hx _ IH]; intros fuel rest Hlen.
  - destruct fuel; simpl in *; [lia | reflexivity].
  - simpl in Hlen. rewrite length_append in Hlen.
    destruct fuel as [|fuel]; [lia |].
    simpl. rewrite append_assoc.
    rewrite Hx by lia. rewrite IH by lia. reflexivity.
Qed.

Lemma dec_enc_props (l : list (string * jsval)) :
  Forall (fun kv => fits (snd kv)) l ->
  forall fuel rest,
    (String.length (enc_props l) <= fuel)%nat ->
    dec_props fuel (enc_props l ++ rest) = Some (l, rest).
Proof.
  induction 1 as [|[k x] l Hx _ IH]; intros fuel rest Hlen.
  - destruct fuel; simpl in *; [lia | reflexivity].
  - simpl in Hlen. rewrite !length_append in Hlen.
    destruct fuel as [|fuel]; [lia |].
    simpl. rewrite !append_assoc. rewrite dec_enc_str.
    simpl in Hx. rewrite Hx by lia. rewrite IH by lia. reflexivity.
Qed.

Lemma dec_enc_val : forall v : jsval, fits v.
Proof.
  fix IH 1. intros v.
  assert (Hitems : forall l : list jsval, Forall fits l).
  { fix IHl 1. intros [|x l]; constructor; [apply IH | apply IHl]. }
  assert (Hprops : forall l : list (string * jsval),
             Forall (fun kv => fits (snd kv)) l).
  { fix IHl 1. intros [|[k x] l]; constructor; [apply IH | apply IHl]. }
  destruct v as [| |b|z|s|items|props]; intros fuel rest Hlen.
  - destruct fuel; simpl in *; [lia | reflexivity].
  - destruct fuel; simpl in *; [lia | reflexivity].
  - destruct b; (destruct fuel; simpl in *; [lia | reflexivity]).
  - destruct fuel; [simpl in *; lia |].
    simpl. rewrite dec_enc_Z. reflexivity.
  - destruct fuel; [simpl in *; lia |].
    simpl. rewrite dec_enc_str. reflexivity.
  - rewrite enc_val_arr in *. destruct fuel; [simpl in *; lia |].
    simpl in Hlen. cbn [append dec_val Ascii.eqb Bool.eqb].
    rewrite (dec_enc_items items (Hitems items)) by lia. reflexivity.
  - rewrite enc_val_obj in *. destruct fuel; [simpl in *; lia |].
    simpl in Hlen. cbn [append dec_val Ascii.eqb Bool.eqb].
    rewrite (dec_enc_props props (Hprops props)) by lia. reflexivity.
Qed.

Lemma wire_lossless : TokenCodec.lossless wire.
Proof.
  intros claims expiration tag. simpl. unfold parse, serialize.
  rewrite dec_enc_val by (rewrite length_append; lia).
  rewrite dec_enc_exp.
  replace (enc_str tag) with (enc_str tag ++ "")%string.
  - rewrite dec_enc_str. reflexivity.
  - clear. induction (enc_str tag) as [|c s IH]; simpl;
      [reflexivity | now rewrite IH].
Qed.

End WireFacts.

(** ** The refresh-token list *)

Module StoreFacts.
Import Server.

Lemma strict_eq_str_refl (R : string) : strict_eq_str R (VStr R) = true.
Proof. apply String.eqb_refl. Qed.

Lemma strict_eq_str_true (s : string) (v : jsval) :
  strict_eq_str s v = true -> v = VStr s.
Proof.
  destruct v; simpl; try discriminate.
  intros H. apply String.eqb_eq in H. now subst.
Qed.

Lemma isActive_register (st : list string) (R : string) (v : jsval) :
  isActive (register st R) v = isActive st v || strict_eq_str R v.
Proof.
  unfold isActive, register. rewrite existsb_app. simpl.
  now rewrite orb_false_r.
Qed.

Lemma isActive_revoke (st : list string) (v : jsval) :
  isActive (revoke st v) v = false.
Proof.
  induction st as [|token st IH]; simpl; [reflexivity |].
  destruct (strict_eq_str token v) eqn:Heq; simpl; [exact IH |].
  now rewrite Heq.
Qed.

Lemma isActive_revoke_other (st : list string) (v w : jsval) :
  isActive (revoke st v) w = true -> isActive st w = true.
Proof.
  induction st as [|token st IH]; simpl; [trivial |].
  destruct (strict_eq_str token v); simpl; intros H.
  - rewrite (IH H). apply orb_true_r.
  - apply orb_true_iff in H as [H|H]; [now rewrite H |].
    rewrite (IH H). apply orb_true_r.
Qed.

Lemma revoke_absent (st : list string) (v : jsval) :
  isActive st v = false -> revoke st v = st.
Proof.
  induction st as [|token st IH]; simpl; [reflexivity |].
  intros H. apply orb_false_iff in H as [Hhd Htl].
  rewrite Hhd. simpl. now rewrite (IH Htl).
Qed.

Lemma revoke_idempotent (st : list string) (v : jsval) :
  revoke (revoke st v) v = revoke st v.
Proof. apply revoke_absent, isActive_revoke. Qed.

Lemma count_occ_revoke (st : list string) (R : string) :
  count_occ string_dec (revoke st (VStr R)) R = 0%nat.
Proof.
  induction st as [|token st IH]; simpl; [reflexivity |].
  destruct (String.eqb_spec token R) as [->|Hne]; simpl; [exact IH |].
  destruct (string_dec token R); [contradiction | exact IH].
Qed.

Lemma count_occ_register (st : list string) (R : string) :
  count_occ string_dec (register st R) R = S (count_occ string_dec st R).
Proof.
  unfold register. rewrite count_occ_app. simpl.
  destruct (string_dec R R); [lia | contradiction].
Qed.

End StoreFacts.

(** ** The routes of server.js *)

Module ServerFacts.
Import Server StoreFacts.

(** What the login route computes, for any implementation of the package. *)
Lemma run_post_login (E : env) (L : JwtLib) (now : Z)
    (refreshTokenList : list string) (req : request) :
  let userObject := VObj [("username", lookup "username" (body req))] in
  let accessToken :=
    jwt_sign L userObject (ACCESS_TOKEN_SECRET E) (Some 15) now in
  let refreshToken :=
    jwt_sign L userObject (REFRESH_TOKEN_SECRET E) None now in
  run L now (post_login E refreshTokenList req)
  = (register refreshTokenList refreshToken,
     Sent (json (VObj [("accessToken", VStr accessToken);
                       ("refreshToken", VStr refreshToken)]))).
Proof. reflexivity. Qed.

(** C1: a renewal request that presents a refresh token which is not in
    [refreshTokenList] is answered 403 "not a valid refresh token"; the
    handler stops there, before any call of [jwt.verify], so the answer
    is the same under every implementation of the package, also one under
    which the token verifies. *)
Theorem createtoken_not_registered (E : env) (refreshTokenList : list string)
    (req : request) :
  loose_null (lookup "token" (body req)) = false ->
  isActive refreshTokenList (lookup "token" (body req)) = false ->
  post_createtoken E refreshTokenList req
  = Ret (refreshTokenList,
         Sent (send 403 "Refresh token that was sent is not a valid refresh token"))
  /\ forall (L : JwtLib) (now : Z),
       verify_calls L now (post_createtoken E refreshTokenList req) = 0%nat
       /\ run L now (post_createtoken E refreshTokenList req)
          = (refreshTokenList,
             Sent (send 403 "Refresh token that was sent is not a valid refresh token")).
Proof.
  intros Hsent Habsent. unfold post_createtoken.
  rewrite Hsent, Habsent. simpl. split; [reflexivity |].
  intros L now. split; reflexivity.
Qed.

Lemma createtoken_not_registered_witness :
  jwt_verify Wire.jwt (VStr Scenario.kyle_refresh)
    (REFRESH_TOKEN_SECRET Wire.process_env) 105 = VOk Scenario.kyle
  /\ (post_createtoken Wire.process_env []
        (Scenario.with_token Scenario.kyle_refresh)
      = Ret ([], Sent (send 403 "Refresh token that was sent is not a valid refresh token"))
      /\ forall (L : JwtLib) (now : Z),
           verify_calls L now
             (post_createtoken Wire.process_env []
                (Scenario.with_token Scenario.kyle_refresh)) = 0%nat
           /\ run L now
                (post_createtoken Wire.process_env []
                   (Scenario.with_token Scenario.kyle_refresh))
              = ([], Sent (send 403 "Refresh token that was sent is not a valid refresh token"))).
Proof.
  split; [vm_compute; reflexivity |].
  apply (createtoken_not_registered Wire.process_env []
           (Scenario.with_token Scenario.kyle_refresh)); reflexivity.
Defined.

(** C4 (as amended, for server.js): the login route signs the claims
    [{username}] with the access secret and an expiry of 15 seconds, signs
    the same claims with the refresh secret and no expiry, pushes the
    refresh token on [refreshTokenList], where it is then active, and
    answers 200 with both tokens. *)
Theorem login_issues_pair (E : env) (L : JwtLib) (now : Z)
    (refreshTokenList : list string) (req : request) :
  let userObject := VObj [("username", lookup "username" (body req))] in
  let accessToken :=
    jwt_sign L userObject (ACCESS_TOKEN_SECRET E) (Some 15) now in
  let refreshToken :=
    jwt_sign L userObject (REFRESH_TOKEN_SECRET E) None now in
  post_login E refreshTokenList req
  = JwtSign userObject (ACCESS_TOKEN_SECRET E) (Some 15) (fun a =>
      JwtSign userObject (REFRESH_TOKEN_SECRET E) None (fun r =>
        Ret ((refreshTokenList ++ [r])%list,
             Sent (json (VObj [("accessToken", VStr a);
                               ("refreshToken", VStr r)])))))
  /\ run L now (post_login E refreshTokenList req)
     = ((refreshTokenList ++ [refreshToken])%list,
        Sent (json (VObj [("accessToken", VStr accessToken);
                          ("refreshToken", VStr refreshToken)])))
  /\ isActive (fst (run L now (post_login E refreshTokenList req)))
       (VStr refreshToken) = true.
Proof.
  cbv zeta. split; [reflexivity |]. split; [reflexivity |].
  rewrite run_post_login. cbv zeta. simpl fst.
  rewrite isActive_register, strict_eq_str_refl. apply orb_true_r.
Qed.

(** C4 as stated fails on the variant: its login route signs the claims
    [{name}] with no expiry and answers with the access token alone; no
    refresh token is made. *)
Lemma variant_login_counterexample :
  Variant.post_login Wire.process_env (Scenario.login_as "Kyle")
  = JwtSign (VObj [("name", VStr "Kyle")])
      (ACCESS_TOKEN_SECRET Wire.process_env) None (fun a =>
        Ret (Sent (json (VObj [("accessToken", VStr a)]))))
  /\ ~ (forall (E : env) (L : JwtLib) (now : Z) (req : request),
          exists a r : string,
            run L now (Variant.post_login E req)
            = Sent (json (VObj [("accessToken", VStr a);
                                ("refreshToken", VStr r)]))).
Proof.
  split; [reflexivity |].
  intros H.
  destruct (H Wire.process_env Wire.jwt 100 (Scenario.login_as "Kyle"))
    as (a & r & Heq).
  discriminate Heq.
Qed.

(** C7: a registered token is active; once revoked it is not; revoking a
    token that is not in the list leaves the list as it is; the logout
    route always answers 204, and a second logout with the same body
    changes nothing. *)
Theorem revocation_store_sequence :
  (forall (st : list string) (R : string),
      isActive (register st R) (VStr R) = true)
  /\ (forall (st : list string) (R : string),
         isActive (revoke (register st R) (VStr R)) (VStr R) = false)
  /\ (forall (st : list string) (v : jsval),
         isActive st v = false -> revoke st v = st)
  /\ (forall (st : list string) (req : request),
         snd (delete_logout st req)
         = Sent (send 204 "Log out successful, associated JWT(s) deleted")
         /\ isActive (fst (delete_logout st req))
              (lookup "token" (body req)) = false)
  /\ (forall (st : list string) (req : request),
         delete_logout (fst (delete_logout st req)) req
         = delete_logout st req).
Proof.
  split; [| split; [| split; [| split]]].
  - intros st R. rewrite isActive_register, strict_eq_str_refl.
    apply orb_true_r.
  - intros st R. apply isActive_revoke.
  - intros st v. apply revoke_absent.
  - intros st req. split; [reflexivity | apply isActive_revoke].
  - intros st req. unfold delete_logout. simpl fst.
    now rewrite revoke_idempotent.
Qed.

Lemma revocation_store_sequence_witness :
  isActive (register ["a"%string] "r") (VStr "r") = true
  /\ isActive (revoke (register ["a"%string] "r") (VStr "r")) (VStr "r")
     = false
  /\ isActive ["a"%string] (VStr "r") = false
  /\ revoke ["a"%string] (VStr "r") = ["a"%string]
  /\ delete_logout ["a"%string] (Scenario.with_token "r")
     = (["a"%string],
        Sent (send 204 "Log out successful, associated JWT(s) deleted")).
Proof.
  destruct revocation_store_sequence
    as (Hreg & Hrev & Habsent & Hlogout & _).
  split; [apply Hreg |]. split; [apply Hrev |].
  split; [reflexivity |]. split; [apply Habsent; reflexivity |].
  reflexivity.
Defined.

(** C8 as stated fails: registering a token that is already in the list
    changes the list, and a list without duplicates can get one. *)
Lemma register_present_counterexample :
  ~ (forall (st : list string) (R : string),
        isActive st (VStr R) = true -> register st R = st)
  /\ ~ (forall (st : list string) (R : string),
          NoDup st -> NoDup (register st R)).
Proof.
  split; intros H.
  - specialize (H ["r"%string] "r"%string eq_refl). discriminate H.
  - specialize (H ["r"%string] "r"%string).
    assert (Hnd : NoDup ["r"%string]) by (repeat constructor; simpl; tauto).
    apply H in Hnd. inversion Hnd as [|x l Hnotin _]; subst.
    apply Hnotin. simpl. tauto.
Qed.

(** C8 (as amended): [register] appends the token whether or not it is
    already there.  When it is, the membership of every value is
    unchanged and the list holds one more copy of the token. *)
Theorem register_appends (st : list string) (R : string) :
  register st R = (st ++ [R])%list
  /\ count_occ string_dec (register st R) R
     = S (count_occ string_dec st R)
  /\ (isActive st (VStr R) = true ->
      forall v : jsval, isActive (register st R) v = isActive st v).
Proof.
  split; [reflexivity |]. split; [apply count_occ_register |].
  intros Hin v. rewrite isActive_register.
  destruct (strict_eq_str R v) eqn:Heq; [| apply orb_false_r].
  apply strict_eq_str_true in Heq. subst v. rewrite Hin. reflexivity.
Qed.

Lemma register_appends_witness :
  isActive ["r"%string] (VStr "r") = true
  /\ register ["r"%string] "r" = ["r"%string; "r"%string]
  /\ count_occ string_dec (register ["r"%string] "r") "r" = 2%nat
  /\ forall v : jsval,
       isActive (register ["r"%string] "r") v = isActive ["r"%string] v.
Proof.
  destruct (register_appends ["r"%string] "r") as (Happ & Hcount & Hsame).
  split; [reflexivity |]. split; [exact Happ |].
  split; [exact Hcount | apply Hsame; reflexivity].
Defined.

(** C10: two logins with the same username at the same clock value get
    the same refresh token, which is then twice in the list; one logout
    with that token removes every copy, so it is no longer active. *)
Theorem same_claims_same_refresh_token (E : env) (L : JwtLib) (now : Z)
    (st : list string) (req1 req2 : request) :
  lookup "username" (body req1) = lookup "username" (body req2) ->
  let first := run L now (post_login E st req1) in
  let second := run L now (post_login E (fst first) req2) in
  exists a R : string,
    snd first = Sent (json (VObj [("accessToken", VStr a);
                                  ("refreshToken", VStr R)]))
    /\ snd second = Sent (json (VObj [("accessToken", VStr a);
                                      ("refreshToken", VStr R)]))
    /\ fst second = (st ++ [R; R])%list
    /\ isActive (fst (delete_logout (fst second) (Scenario.with_token R)))
         (VStr R) = false
    /\ count_occ string_dec
         (fst (delete_logout (fst second) (Scenario.with_token R))) R
       = 0%nat.
Proof.
  intros Hsame first second. subst first second.
  rewrite !run_post_login. cbv zeta. simpl fst. simpl snd.
  rewrite <- Hsame.
  eexists _, _. split; [reflexivity |]. split; [reflexivity |].
  split; [unfold register; now rewrite <- app_assoc |].
  split; [apply isActive_revoke | apply count_occ_revoke].
Qed.

Lemma same_claims_same_refresh_token_witness :
  lookup "username" (body (Scenario.login_as "Kyle"))
  = lookup "username" (body (Scenario.login_as "Kyle"))
  /\ let first :=
       run Wire.jwt 100
         (post_login Wire.process_env [] (Scenario.login_as "Kyle")) in
     let second :=
       run Wire.jwt 100
         (post_login Wire.process_env (fst first) (Scenario.login_as "Kyle")) in
     exists a R : string,
       snd first = Sent (json (VObj [("accessToken", VStr a);
                                     ("refreshToken", VStr R)]))
       /\ snd second = Sent (json (VObj [("accessToken", VStr a);
                                         ("refreshToken", VStr R)]))
       /\ fst second = ([] ++ [R; R])%list
       /\ isActive
            (fst (delete_logout (fst second) (Scenario.with_token R)))
            (VStr R) = false
       /\ count_occ string_dec
            (fst (delete_logout (fst second) (Scenario.with_token R))) R
          = 0%nat.
Proof.
  split; [reflexivity |].
  apply (same_claims_same_refresh_token Wire.process_env Wire.jwt 100 []
           (Scenario.login_as "Kyle") (Scenario.login_as "Kyle")).
  reflexivity.
Defined.

(** *** The authentication middleware *)


Lemma run_bind {A B : Type} (L : JwtLib) (now : Z) (m : io A)
    (f : A -> io B) :
  run L now (bind m f) = run L now (f (run L now m)).
Proof.
  induction m as [a|c s e k IH|t s k IH]; simpl; [reflexivity | apply IH ..].
Qed.

Lemma split_not_nil (sep : ascii) (s : string) : split sep s <> [].
Proof.
  destruct s as [|c rest]; simpl; [discriminate |].
  destruct (Ascii.eqb c sep); [discriminate |].
  destruct (split sep rest); discriminate.
Qed.

Lemma split_second (sep : ascii) (s : string) :
  nth_error (split sep s) 1 = None <-> contains sep s = false.
Proof.
  induction s as [|c rest IH]; simpl; [tauto |].
  destruct (Ascii.eqb c sep); simpl.
  - pose proof (split_not_nil sep rest) as Hne.
    destruct (split sep rest); [contradiction |].
    simpl. split; discriminate.
  - pose proof (split_not_nil sep rest) as Hne.
    destruct (split sep rest) as [|w ws]; [contradiction |].
    simpl in *. exact IH.
Qed.

(** When the extracted token is [undefined] or [null]: the header is
    absent, or it is not empty and has no space in it. *)
Lemma header_token_null (a : option string) :
  loose_null (header_token a) = true
  <-> a = None
      \/ exists h : string,
           a = Some h /\ h <> EmptyString /\ contains " " h = false.
Proof.
  destruct a as [h|]; simpl.
  - destruct h as [|c rest].
    + simpl. split; [discriminate |].
      intros [Hno|(h & Heq & Hne & _)]; [discriminate |].
      injection Heq as <-. contradiction.
    + unfold index_str.
      pose proof (split_second " " (String c rest)) as Hsplit.
      destruct (nth_error (split " " (String c rest)) 1) as [w|]; simpl.
      * split; [discriminate |].
        intros [Hno|(h & Heq & _ & Hsp)]; [discriminate |].
        injection Heq as <-.
        apply Hsplit in Hsp. discriminate Hsp.
      * split; [| reflexivity]. intros _. right.
        exists (String c rest).
        split; [reflexivity |]. split; [discriminate |].
        now apply Hsplit.
  - split; [now left | reflexivity].
Qed.

(** What the middleware does, for any implementation of the package. *)
Lemma run_authenticateToken (E : env) (L : JwtLib) (now : Z)
    (req : request) :
  run L now (authenticateToken E req)
  = let token := header_token (authorization req) in
    if loose_null token then
      Sent (send 401 "You did not send a token with your request")
    else
      match jwt_verify L token (ACCESS_TOKEN_SECRET E) now with
      | VErr _ =>
          Sent (send 403 "You have a JWT token, but the token is no longer valid so you no longer have access")
      | VOk data => Next (set_user req data)
      end.
Proof.
  unfold authenticateToken. cbv zeta.
  destruct (loose_null (header_token (authorization req)));
    [reflexivity |].
  simpl. destruct (jwt_verify L _ _ now); reflexivity.
Qed.

(** On a success the middleware of server.js sets [req.user] to the
    decoded claims and calls [next()]. *)
Lemma guard_attaches_claims (E : env) (L : JwtLib) (now : Z)
    (req : request) (data : jsval) :
  loose_null (header_token (authorization req)) = false ->
  jwt_verify L (header_token (authorization req))
    (ACCESS_TOKEN_SECRET E) now = VOk data ->
  run L now (authenticateToken E req) = Next (set_user req data)
  /\ user (set_user req data) = data.
Proof.
  intros Htok Hok. rewrite run_authenticateToken. cbv zeta.
  rewrite Htok, Hok. split; reflexivity.
Qed.

(** A header that has a space in it has a second field. *)
Lemma split_has_second (sep : ascii) (h : string) :
  contains sep h = true ->
  exists field : string, nth_error (split sep h) 1 = Some field.
Proof.
  intros Hsp. destruct (nth_error (split sep h) 1) as [field|] eqn:Hnth.
  - now exists field.
  - apply split_second in Hnth. congruence.
Qed.

(** X16: for the empty header the conjunction [authHeader && ...] is the
    empty string itself, which is not [null]: the request is not answered
    401, the empty string goes to [jwt.verify], and the answer is the 403
    of an invalid token unless the package accepts it. *)
Lemma empty_header_is_verified (E : env) (L : JwtLib) (now : Z) :
  header_token (Some EmptyString) = VStr EmptyString
  /\ run L now (authenticateToken E (Scenario.with_header ""))
     = match jwt_verify L (VStr "") (ACCESS_TOKEN_SECRET E) now with
       | VErr _ =>
           Sent (send 403 "You have a JWT token, but the token is no longer valid so you no longer have access")
       | VOk data => Next (set_user (Scenario.with_header "") data)
       end.
Proof.
  split; [reflexivity |]. now rewrite run_authenticateToken.
Qed.

(** C2 as stated fails on server.js: a header that carries another
    scheme than [Bearer] does not have the form [Bearer <token>], and yet
    the middleware never answers it with 401, whatever the package does:
    the scheme word is not looked at, and the field after it is
    verified. *)
Lemma malformed_header_counterexample :
  bearer_form "Basic abc" = false
  /\ header_token (Some "Basic abc") = VStr "abc"
  /\ forall (E : env) (L : JwtLib) (now : Z),
       run L now (authenticateToken E (Scenario.with_header "Basic abc"))
       <> Sent (send 401 "You did not send a token with your request").
Proof.
  split; [reflexivity |]. split; [reflexivity |].
  intros E L now. rewrite !run_authenticateToken. cbv zeta. simpl.
  destruct (jwt_verify L _ _ now); distinct_outcomes.
Qed.

(** C2 (as amended, for server.js and a header that is absent or not
    empty): the middleware answers 401 exactly when the header is absent
    or has no space in it; the scheme word is not looked at.  When the
    header has a space in it, its second space-separated field is handed
    to [jwt.verify] with the access secret, and every failure of the
    verification, whatever its reason, is answered with the same 403. *)
Theorem guard_rejections (E : env) (L : JwtLib) (now : Z) (req : request) :
  authorization req <> Some EmptyString ->
  (run L now (authenticateToken E req)
   = Sent (send 401 "You did not send a token with your request")
   <-> authorization req = None
       \/ exists h : string,
            authorization req = Some h /\ contains " " h = false)
  /\ (forall h : string,
        authorization req = Some h ->
        contains " " h = true ->
        exists field : string,
          nth_error (split " " h) 1 = Some field
          /\ run L now (authenticateToken E req)
             = match jwt_verify L (VStr field)
                       (ACCESS_TOKEN_SECRET E) now with
               | VErr _ =>
                   Sent (send 403 "You have a JWT token, but the token is no longer valid so you no longer have access")
               | VOk data => Next (set_user req data)
               end
          /\ forall e : VerifyError,
               jwt_verify L (VStr field) (ACCESS_TOKEN_SECRET E) now
               = VErr e ->
               run L now (authenticateToken E req)
               = Sent (send 403 "You have a JWT token, but the token is no longer valid so you no longer have access")).
Proof.
  intros Hnot_empty. rewrite run_authenticateToken. cbv zeta. split.
  - transitivity (loose_null (header_token (authorization req)) = true).
    + destruct (loose_null (header_token (authorization req))).
      * tauto.
      * split; [| discriminate].
        destruct (jwt_verify L _ _ now); distinct_outcomes.
    + rewrite header_token_null. split.
      * intros [Hno|(h & Heq & _ & Hsp)]; [now left |].
        right. now exists h.
      * intros [Hno|(h & Heq & Hsp)]; [now left |].
        right. exists h. split; [exact Heq |]. split; [| exact Hsp].
        intros ->. contradiction.
  - intros h Heq Hsp.
    destruct (split_has_second " " h Hsp) as [field Hfield].
    exists field. split; [exact Hfield |].
    assert (Htok : header_token (authorization req) = VStr field).
    { rewrite Heq. destruct h as [|c rest]; [discriminate Hsp |].
      change (header_token (Some (String c rest)))
        with (index_str (split " " (String c rest)) 1).
      unfold index_str. now rewrite Hfield. }
    rewrite Htok. simpl loose_null. split; [reflexivity |].
    intros e Herr. now rewrite Herr.
Qed.

Lemma guard_rejections_witness :
  authorization Scenario.no_header <> Some EmptyString
  /\ authorization (Scenario.with_header "Bearer") <> Some EmptyString
  /\ authorization (Scenario.bearer Scenario.kyle_access)
     <> Some EmptyString
  /\ run Wire.jwt 105 (authenticateToken Wire.process_env Scenario.no_header)
     = Sent (send 401 "You did not send a token with your request")
  /\ run Wire.jwt 105
       (authenticateToken Wire.process_env (Scenario.with_header "Bearer"))
     = Sent (send 401 "You did not send a token with your request")
  /\ contains " " ("Bearer " ++ Scenario.kyle_access) = true
  /\ exists field : string,
       nth_error (split " " ("Bearer " ++ Scenario.kyle_access)) 1
       = Some field
       /\ field = Scenario.kyle_access
       /\ jwt_verify Wire.jwt (VStr field)
            (ACCESS_TOKEN_SECRET Wire.process_env) 116 = VErr Expired
       /\ run Wire.jwt 116
            (authenticateToken Wire.process_env
               (Scenario.bearer Scenario.kyle_access))
          = Sent (send 403 "You have a JWT token, but the token is no longer valid so you no longer have access").
Proof.
  split; [discriminate |]. split; [discriminate |].
  split; [discriminate |].
  split.
  { apply (proj1 (guard_rejections Wire.process_env Wire.jwt 105
                    Scenario.no_header ltac:(discriminate))).
    left. reflexivity. }
  split.
  { apply (proj1 (guard_rejections Wire.process_env Wire.jwt 105
                    (Scenario.with_header "Bearer") ltac:(discriminate))).
    right. exists "Bearer"%string. split; reflexivity. }
  split; [vm_compute; reflexivity |].
  destruct (proj2 (guard_rejections Wire.process_env Wire.jwt 116
                     (Scenario.bearer Scenario.kyle_access)
                     ltac:(discriminate))
              ("Bearer " ++ Scenario.kyle_access)%string eq_refl
              ltac:(vm_compute; reflexivity))
    as (field & Hfield & _ & Hfail).
  exists field. split; [exact Hfield |].
  assert (Heq : field = Scenario.kyle_access).
  { vm_compute in Hfield. injection Hfield as <-. vm_compute. reflexivity. }
  split; [exact Heq |].
  assert (Herr : jwt_verify Wire.jwt (VStr field)
                   (ACCESS_TOKEN_SECRET Wire.process_env) 116
                 = VErr Expired).
  { rewrite Heq. vm_compute. reflexivity. }
  split; [exact Herr | exact (Hfail Expired Herr)].
Defined.

(** *** The posts route *)

Lemma filter_posts_some (u name : jsval) (ps : list post) :
  get_prop u "username" = Some name ->
  filter_posts u ps
  = Some (filter (fun p => strict_eq_str (username p) name) ps).
Proof.
  intros Hname. induction ps as [|p rest IH]; simpl; [reflexivity |].
  rewrite Hname, IH. now destruct (strict_eq_str (username p) name).
Qed.

(** C9 (as amended, for server.js): GET /posts answers 401 when the
    middleware finds no token, 403 when the token fails to verify, and,
    when it verifies to claims with the property [username], 200 with
    exactly the posts whose username is strictly equal to it. *)
Theorem posts_route (E : env) (L : JwtLib) (now : Z) (req : request) :
  let token := header_token (authorization req) in
  (loose_null token = true ->
   run L now (get_posts E req)
   = Sent (send 401 "You did not send a token with your request"))
  /\ (forall e : VerifyError,
        loose_null token = false ->
        jwt_verify L token (ACCESS_TOKEN_SECRET E) now = VErr e ->
        run L now (get_posts E req)
        = Sent (send 403 "You have a JWT token, but the token is no longer valid so you no longer have access"))
  /\ (forall data name : jsval,
        loose_null token = false ->
        jwt_verify L token (ACCESS_TOKEN_SECRET E) now = VOk data ->
        get_prop data "username" = Some name ->
        run L now (get_posts E req)
        = Sent (json (VArr (map post_json
                  (filter (fun p => strict_eq_str (username p) name)
                          posts))))).
Proof.
  cbv zeta. unfold get_posts. rewrite run_bind, run_authenticateToken.
  cbv zeta. split; [| split].
  - intros Htok. now rewrite Htok.
  - intros e Htok Herr. now rewrite Htok, Herr.
  - intros data name Htok Hok Hname. rewrite Htok, Hok. simpl.
    unfold posts_handler. simpl user.
    now rewrite (filter_posts_some data name posts Hname).
Qed.

Lemma posts_route_witness :
  run Wire.jwt 105 (get_posts Wire.process_env Scenario.no_header)
  = Sent (send 401 "You did not send a token with your request")
  /\ run Wire.jwt 116
       (get_posts Wire.process_env (Scenario.bearer Scenario.kyle_access))
     = Sent (send 403 "You have a JWT token, but the token is no longer valid so you no longer have access")
  /\ run Wire.jwt 105
       (get_posts Wire.process_env (Scenario.bearer Scenario.kyle_access))
     = Sent (json (VArr (map post_json
               (filter (fun p => strict_eq_str (username p) (VStr "Kyle"))
                       posts)))).
Proof.
  split.
  { apply (posts_route Wire.process_env Wire.jwt 105 Scenario.no_header).
    reflexivity. }
  split.
  { apply (proj1 (proj2 (posts_route Wire.process_env Wire.jwt 116
                           (Scenario.bearer Scenario.kyle_access)))
             Expired);
      vm_compute; reflexivity. }
  apply (proj2 (proj2 (posts_route Wire.process_env Wire.jwt 105
                         (Scenario.bearer Scenario.kyle_access)))
           Scenario.kyle (VStr "Kyle"));
    vm_compute; reflexivity.
Defined.

(** C9 as stated fails on the variant: GET /post has no middleware; a
    request without a token is answered 200 with every post. *)
Lemma variant_post_counterexample :
  Variant.get_post Scenario.no_header
  = Sent {| status := 200;
            content :=
              Json (VArr [post_json (mkPost "Kyle" "Post 1");
                          post_json (mkPost "Jim" "Post 2")]) |}
  /\ forall req : request,
       Variant.get_post req
       <> Sent (send 401 "You did not send a token with your request").
Proof.
  split; [reflexivity |]. intros req. unfold Variant.get_post.
  distinct_outcomes.
Qed.

(** The extracted token is never [null], so the test [token === null] of
    the variant never holds. *)
Lemma header_token_not_null (a : option string) :
  strict_null (header_token a) = false.
Proof.
  destruct a as [[|c rest]|]; simpl; try reflexivity.
  unfold index_str. now destruct (nth_error _ 1).
Qed.

(** C6 at the variant: with a header whose token verifies, the middleware
    of server.js sets [req.user] and calls [next()], while that of the
    variant does neither.  Under every implementation of the package the
    variant's middleware throws when the verification fails and leaves the
    request unanswered when it succeeds; it never lets a request proceed. *)
Theorem variant_guard_never_proceeds :
  jwt_verify Wire.jwt
    (header_token (authorization (Scenario.bearer Scenario.kyle_access)))
    (ACCESS_TOKEN_SECRET Wire.process_env) 105 = VOk Scenario.kyle
  /\ run Wire.jwt 105
       (Variant.authenticateToken Wire.process_env
          (Scenario.bearer Scenario.kyle_access)) = Pending
  /\ run Wire.jwt 105
       (authenticateToken Wire.process_env
          (Scenario.bearer Scenario.kyle_access))
     = Next (set_user (Scenario.bearer Scenario.kyle_access) Scenario.kyle)
  /\ forall (E : env) (L : JwtLib) (now : Z) (req : request),
       run L now (Variant.authenticateToken E req)
       = match jwt_verify L (header_token (authorization req))
                 (ACCESS_TOKEN_SECRET E) now with
         | VErr _ => Threw
         | VOk _ => Pending
         end
       /\ forall req' : request,
            run L now (Variant.authenticateToken E req) <> Next req'.
Proof.
  split; [vm_compute; reflexivity |].
  split; [vm_compute; reflexivity |].
  split; [vm_compute; reflexivity |].
  intros E L now req. unfold Variant.authenticateToken. cbv zeta.
  rewrite header_token_not_null. simpl.
  destruct (jwt_verify L _ _ now); split; try reflexivity; discriminate.
Qed.

End ServerFacts.

(** ** The Token Codec *)

Module CodecFacts.
Import TokenCodec.

Section Lossless.

Variable F : format.
Variable integrity_tag : string -> jsval -> option Z -> string.
Hypothesis F_lossless : lossless F.

(** Verifying a freshly signed token with the key that signed it: only
    the expiration can make it fail. *)
Lemma verify_sign (claims : jsval) (secretKey : string)
    (expiresIn : option Z) (issued now : Z) :
  verify F integrity_tag
    (sign F integrity_tag claims secretKey expiresIn issued) secretKey now
  = match expiresIn with
    | Some d => if issued + d <? now then VErr Expired else VOk claims
    | None => VOk claims
    end.
Proof.
  unfold verify, sign. rewrite F_lossless, String.eqb_refl.
  destruct expiresIn; reflexivity.
Qed.

(** C3: a token signed with no options verifies, under the key that
    signed it and at any time, to exactly the claims that were signed. *)
Theorem sign_verify_roundtrip (claims : jsval) (secretKey : string)
    (issued now : Z) :
  verify F integrity_tag
    (sign F integrity_tag claims secretKey None issued) secretKey now
  = VOk claims.
Proof. apply verify_sign. Qed.

(** C5: a token signed without [expiresIn] never fails with [Expired],
    at any time and under any key; a token signed with [expiresIn = d]
    verifies to its claims while less than [d] has elapsed since it was
    issued, and fails with [Expired] once more than [d] has. *)
Theorem expiration_outcome (claims : jsval) (secretKey : string)
    (issued : Z) :
  (forall (otherKey : string) (now : Z),
      verify F integrity_tag
        (sign F integrity_tag claims secretKey None issued) otherKey now
      <> VErr Expired)
  /\ (forall d now : Z,
        now < issued + d ->
        verify F integrity_tag
          (sign F integrity_tag claims secretKey (Some d) issued)
          secretKey now
        = VOk claims)
  /\ (forall d now : Z,
        issued + d < now ->
        verify F integrity_tag
          (sign F integrity_tag claims secretKey (Some d) issued)
          secretKey now
        = VErr Expired).
Proof.
  split; [| split].
  - intros otherKey now. unfold verify, sign. rewrite F_lossless. simpl.
    destruct (String.eqb _ _); discriminate.
  - intros d now Hnow. rewrite verify_sign.
    destruct (Z.ltb_spec (issued + d) now); [lia | reflexivity].
  - intros d now Hnow. rewrite verify_sign.
    destruct (Z.ltb_spec (issued + d) now); [reflexivity | lia].
Qed.

End Lossless.

Lemma sign_verify_roundtrip_witness :
  lossless Wire.wire
  /\ verify Wire.wire Wire.integrity_tag
       (sign Wire.wire Wire.integrity_tag Scenario.kyle "refresh-secret"
          None 100) "refresh-secret" 100000
     = VOk Scenario.kyle.
Proof.
  split; [exact WireFacts.wire_lossless |].
  exact (sign_verify_roundtrip Wire.wire Wire.integrity_tag
           WireFacts.wire_lossless Scenario.kyle "refresh-secret"
           100 100000).
Defined.

(** The example of the specification: signed for 1 second, verified at
    once, and verified 2 seconds later. *)
Lemma expiration_outcome_witness :
  lossless Wire.wire
  /\ verify Wire.wire Wire.integrity_tag
       (sign Wire.wire Wire.integrity_tag Scenario.kyle "access-secret"
          (Some 1) 100) "access-secret" 100
     = VOk Scenario.kyle
  /\ verify Wire.wire Wire.integrity_tag
       (sign Wire.wire Wire.integrity_tag Scenario.kyle "access-secret"
          (Some 1) 100) "access-secret" 102
     = VErr Expired
  /\ verify Wire.wire Wire.integrity_tag
       (sign Wire.wire Wire.integrity_tag Scenario.kyle "access-secret"
          None 100) "access-secret" 102
     <> VErr Expired.
Proof.
  pose proof (expiration_outcome Wire.wire Wire.integrity_tag
                WireFacts.wire_lossless Scenario.kyle "access-secret" 100)
    as (Hnone & Hlive & Hdead).
  split; [exact WireFacts.wire_lossless |].
  split; [apply Hlive; lia |].
  split; [apply Hdead; lia | apply Hnone].
Defined.

End CodecFacts.

(** ** The reference scenario, run under [Wire.jwt] *)

Module ScenarioFacts.
Import Server Scenario.

(** Kyle logs in at time 100, reads his posts at 105, is refused at 116
    when the access token has expired, renews at 117, reads again with
    the new access token, logs out, and can no longer renew. *)
Example end_to_end :
  let E := Wire.process_env in
  let L := Wire.jwt in
  let '(st1, login) := run L 100 (post_login E [] (login_as "Kyle")) in
  let '(st2, renewal) :=
    run L 117 (post_createtoken E st1 (with_token kyle_refresh)) in
  let renewed := jwt_sign L kyle (ACCESS_TOKEN_SECRET E) (Some 15) 117 in
  let '(st3, logout) := delete_logout st2 (with_token kyle_refresh) in
  login = Sent (json (VObj [("accessToken", VStr kyle_access);
                            ("refreshToken", VStr kyle_refresh)]))
  /\ st1 = [kyle_refresh]
  /\ run L 105 (get_posts E (bearer kyle_access))
     = Sent (json (VArr [post_json (mkPost "Kyle" "Post 1")]))
  /\ status_of (run L 116 (get_posts E (bearer kyle_access))) = Some 403%nat
  /\ renewal = Sent (json (VObj [("accessToken", VStr renewed)]))
  /\ run L 118 (get_posts E (bearer renewed))
     = Sent (json (VArr [post_json (mkPost "Kyle" "Post 1")]))
  /\ status_of logout = Some 204%nat
  /\ st3 = []
  /\ status_of (snd (run L 119
                       (post_createtoken E st3 (with_token kyle_refresh))))
     = Some 403%nat
  /\ status_of (run L 105 (get_posts E no_header)) = Some 401%nat.
Proof. vm_compute. repeat split. Qed.

End ScenarioFacts.

(** ** Further properties of server.js *)

Module HeaderFacts.

Lemma split_whole (sep : ascii) (s : string) :
  contains sep s = false -> split sep s = [s].
Proof.
  induction s as [|c rest IH]; simpl; [reflexivity |].
  intros H. apply orb_false_iff in H as [Hc Hrest].
  rewrite Hc, (IH Hrest). reflexivity.
Qed.

Lemma split_at_first (sep : ascii) (a b : string) :
  contains sep a = false ->
  split sep (a ++ String sep b) = a :: split sep b.
Proof.
  induction a as [|c rest IH]; simpl.
  - intros _. now rewrite Ascii.eqb_refl.
  - intros H. apply orb_false_iff in H as [Hc Hrest].
    rewrite Hc, (IH Hrest). reflexivity.
Qed.

Lemma split_fields (sep : ascii) (s : string) :
  Forall (fun field => contains sep field = false) (split sep s).
Proof.
  induction s as [|c rest IH]; simpl.
  - repeat constructor.
  - destruct (Ascii.eqb c sep) eqn:Hc.
    + constructor; [reflexivity | exact IH].
    + pose proof (ServerFacts.split_not_nil sep rest) as Hne.
      destruct (split sep rest) as [|w ws]; [contradiction |].
      inversion IH as [|x l Hw Hws]; subst.
      constructor; [simpl; now rewrite Hc, Hw | exact Hws].
Qed.

Lemma header_token_fields (h : string) :
  h <> EmptyString ->
  header_token (Some h) = index_str (split " " h) 1.
Proof. destruct h; [contradiction | reflexivity]. Qed.

Lemma append_not_empty (a b : string) (c : ascii) :
  (a ++ String c b)%string <> EmptyString.
Proof. destruct a; discriminate. Qed.

(** X1: the middleware takes the second space-separated field of the
    header whatever the first one is.  After any scheme word, also an
    empty one, a token without a space is extracted as it is, and what
    follows a further space is cut off. *)
Theorem header_token_any_scheme (scheme token : string) :
  contains " " scheme = false ->
  contains " " token = false ->
  header_token (Some (scheme ++ " " ++ token)) = VStr token
  /\ forall tail : string,
       header_token (Some (scheme ++ " " ++ token ++ " " ++ tail))
       = VStr token.
Proof.
  intros Hscheme Htoken. simpl append. split; [| intros tail].
  - rewrite header_token_fields by apply append_not_empty.
    rewrite (split_at_first " " scheme token Hscheme).
    now rewrite (split_whole " " token Htoken).
  - rewrite header_token_fields by apply append_not_empty.
    rewrite (split_at_first " " scheme _ Hscheme).
    now rewrite (split_at_first " " token tail Htoken).
Qed.

Lemma header_token_any_scheme_witness :
  contains " " "Basic" = false
  /\ contains " " "abc.def" = false
  /\ header_token (Some "Basic abc.def") = VStr "abc.def"
  /\ header_token (Some "Basic abc.def ghi jkl") = VStr "abc.def".
Proof.
  split; [reflexivity |]. split; [reflexivity |].
  destruct (header_token_any_scheme "Basic" "abc.def" eq_refl eq_refl)
    as [Hexact Hcut].
  split; [exact Hexact | exact (Hcut "ghi jkl"%string)].
Defined.

(** X2: a token that the middleware extracts from a header never has a
    space in it. *)
Theorem header_token_no_space (h token : string) :
  header_token (Some h) = VStr token -> contains " " token = false.
Proof.
  destruct h as [|c rest].
  - simpl. intros H. injection H as <-. reflexivity.
  - rewrite header_token_fields by discriminate. unfold index_str.
    destruct (nth_error (split " " (String c rest)) 1) as [w|] eqn:Hnth;
      [| discriminate].
    intros H. injection H as <-.
    apply nth_error_In in Hnth.
    pose proof (split_fields " " (String c rest)) as Hall.
    rewrite Forall_forall in Hall. now apply Hall.
Qed.

Lemma header_token_no_space_witness :
  header_token (Some "Bearer abc def") = VStr "abc"
  /\ contains " " "abc" = false.
Proof.
  split; [reflexivity |].
  apply (header_token_no_space "Bearer abc def" "abc"). reflexivity.
Defined.

End HeaderFacts.

Module GuardFacts.
Import Server.

(** X3: the middleware lets a request proceed exactly when a token was
    extracted and [jwt.verify] accepts it under the access secret; the
    request handed on is the same request with [user] set to the decoded
    data.  It calls [jwt.verify] once when a token was extracted and not at
    all otherwise. *)
Theorem guard_proceeds_iff (E : env) (L : JwtLib) (now : Z) (req : request) :
  (forall req' : request,
      run L now (authenticateToken E req) = Next req'
      <-> loose_null (header_token (authorization req)) = false
          /\ exists data : jsval,
               jwt_verify L (header_token (authorization req))
                 (ACCESS_TOKEN_SECRET E) now = VOk data
               /\ req' = {| authorization := authorization req;
                            body := body req;
                            user := data |})
  /\ verify_calls L now (authenticateToken E req)
     = (if loose_null (header_token (authorization req)) then 0 else 1)%nat.
Proof.
  split.
  - intros req'. rewrite ServerFacts.run_authenticateToken. cbv zeta.
    destruct (loose_null (header_token (authorization req))).
    + split; [discriminate | intros [H _]; discriminate H].
    + destruct (jwt_verify L _ _ now) as [data|e].
      * split.
        -- intros H. injection H as <-. split; [reflexivity |].
           exists data. split; reflexivity.
        -- intros (_ & data' & Hok & ->). injection Hok as <-.
           reflexivity.
      * split; [discriminate |].
        intros (_ & data' & Hok & _). discriminate Hok.
  - unfold authenticateToken. cbv zeta.
    destruct (loose_null (header_token (authorization req)));
      [reflexivity |].
    simpl. now destruct (jwt_verify L _ _ now).
Qed.

(** X4: when the verified data has a [username] that is not a string (a
    login without a username, say), GET /posts answers 200 with an empty
    list; when the verified data is [null] or [undefined], reading
    [req.user.username] throws. *)
Theorem posts_route_edges (E : env) (L : JwtLib) (now : Z) (req : request)
    (data : jsval) :
  loose_null (header_token (authorization req)) = false ->
  jwt_verify L (header_token (authorization req))
    (ACCESS_TOKEN_SECRET E) now = VOk data ->
  (forall name : jsval,
      get_prop data "username" = Some name ->
      (forall u : string, name <> VStr u) ->
      run L now (get_posts E req) = Sent (json (VArr [])))
  /\ (get_prop data "username" = None ->
      run L now (get_posts E req) = Threw).
Proof.
  intros Htok Hok. unfold get_posts.
  rewrite ServerFacts.run_bind, ServerFacts.run_authenticateToken.
  cbv zeta. rewrite Htok, Hok. simpl run. unfold posts_handler.
  simpl user. split.
  - intros name Hname Hnot.
    rewrite (ServerFacts.filter_posts_some data name posts Hname).
    destruct name; try reflexivity.
    exfalso. now apply (Hnot s).
  - intros Hnone. simpl. now rewrite Hnone.
Qed.

Lemma posts_route_edges_witness :
  let anonymous :=
    jwt_sign Wire.jwt (VObj [("username", VUndefined)])
      (ACCESS_TOKEN_SECRET Wire.process_env) (Some 15) 100 in
  run Wire.jwt 100
    (post_login Wire.process_env [] (Scenario.with_body []))
  = ([jwt_sign Wire.jwt (VObj [("username", VUndefined)])
        (REFRESH_TOKEN_SECRET Wire.process_env) None 100],
     Sent (json (VObj [("accessToken", VStr anonymous);
                       ("refreshToken",
                        VStr (jwt_sign Wire.jwt
                                (VObj [("username", VUndefined)])
                                (REFRESH_TOKEN_SECRET Wire.process_env)
                                None 100))])))
  /\ run Wire.jwt 105
       (get_posts Wire.process_env (Scenario.bearer anonymous))
     = Sent (json (VArr [])).
Proof.
  cbv zeta. split; [reflexivity |].
  refine (proj1 (posts_route_edges Wire.process_env Wire.jwt 105 _
                   (VObj [("username", VUndefined)]) _ _)
            VUndefined _ _).
  - vm_compute. reflexivity.
  - vm_compute. reflexivity.
  - reflexivity.
  - intros u. discriminate.
Defined.

End GuardFacts.

Module LoginFacts.
Import Server StoreFacts.

(** X5: the login route asks for no credential and refuses nothing: for
    every request it answers 200, calls [jwt.verify] not at all, makes the
    list one entry longer, and leaves every token that was active
    active. *)
Theorem login_never_refuses (E : env) (L : JwtLib) (now : Z)
    (st : list string) (req : request) :
  status_of (snd (run L now (post_login E st req))) = Some 200%nat
  /\ verify_calls L now (post_login E st req) = 0%nat
  /\ length (fst (run L now (post_login E st req))) = S (length st)
  /\ forall v : jsval,
       isActive st v = true ->
       isActive (fst (run L now (post_login E st req))) v = true.
Proof.
  rewrite ServerFacts.run_post_login. cbv zeta. simpl fst. simpl snd.
  split; [reflexivity |]. split; [reflexivity |]. split.
  - unfold register. rewrite length_app. simpl. lia.
  - intros v Hv. rewrite isActive_register, Hv. reflexivity.
Qed.

End LoginFacts.

Module RenewalFacts.
Import Server StoreFacts.

Lemma isActive_string (st : list string) (v : jsval) :
  isActive st v = true -> exists R : string, v = VStr R.
Proof.
  induction st as [|token st IH]; simpl; [discriminate |].
  intros H. apply orb_true_iff in H as [H|H]; [| exact (IH H)].
  exists token. now apply strict_eq_str_true.
Qed.

Lemma isActive_not_null (st : list string) (v : jsval) :
  isActive st v = true -> loose_null v = false.
Proof. intros H. now destruct (isActive_string st v H) as [R ->]. Qed.

(** What the renewal route computes, for any implementation of the
    package. *)
Lemma run_post_createtoken (E : env) (L : JwtLib) (now : Z)
    (st : list string) (req : request) :
  run L now (post_createtoken E st req)
  = let refreshToken := lookup "token" (body req) in
    (st,
     if loose_null refreshToken then
       Sent (send 401 "Refresh token not sent in POST request")
     else if isActive st refreshToken then
       match jwt_verify L refreshToken (REFRESH_TOKEN_SECRET E) now with
       | VErr _ =>
           Sent (send 403 "Error occured during verification of refresh token")
       | VOk data =>
           match get_prop data "username" with
           | None => Threw
           | Some name =>
               Sent (json (VObj
                 [("accessToken",
                   VStr (jwt_sign L (VObj [("username", name)])
                           (ACCESS_TOKEN_SECRET E) (Some 15) now))]))
           end
       end
     else
       Sent (send 403 "Refresh token that was sent is not a valid refresh token")).
Proof.
  unfold post_createtoken. cbv zeta.
  destruct (loose_null (lookup "token" (body req))); [reflexivity |].
  destruct (isActive st (lookup "token" (body req))); [| reflexivity].
  simpl. destruct (jwt_verify L _ _ now) as [data|e]; [| reflexivity].
  now destruct (get_prop data "username").
Qed.

(** X6: the renewal route never changes [refreshTokenList], whatever the
    request and whatever the package answers: a refresh token that was
    used stays registered, and nothing is added. *)
Theorem createtoken_keeps_store (E : env) (L : JwtLib) (now : Z)
    (st : list string) (req : request) :
  fst (run L now (post_createtoken E st req)) = st.
Proof. now rewrite run_post_createtoken. Qed.

(** X7: the renewal route answers 401 exactly when the body has no
    [token], or a [null] one. *)
Theorem createtoken_401_iff (E : env) (L : JwtLib) (now : Z)
    (st : list string) (req : request) :
  status_of (snd (run L now (post_createtoken E st req))) = Some 401%nat
  <-> loose_null (lookup "token" (body req)) = true.
Proof.
  rewrite run_post_createtoken. cbv zeta. simpl snd.
  destruct (loose_null (lookup "token" (body req))).
  - split; reflexivity.
  - split; [| discriminate].
    destruct (isActive st (lookup "token" (body req)));
      [| simpl; discriminate].
    destruct (jwt_verify L _ _ now) as [data|e]; [| simpl; discriminate].
    destruct (get_prop data "username"); simpl; discriminate.
Qed.

(** X8: the renewal route answers 200 exactly when the token is in the
    list and [jwt.verify] accepts it under the refresh secret with data
    that is not [null]; the new access token is then signed over
    [{username}] alone, with the [username] of the verified data, the
    access secret and 15 seconds. *)
Theorem createtoken_200_iff (E : env) (L : JwtLib) (now : Z)
    (st : list string) (req : request) :
  let refreshToken := lookup "token" (body req) in
  (status_of (snd (run L now (post_createtoken E st req))) = Some 200%nat
   <-> isActive st refreshToken = true
       /\ exists data name : jsval,
            jwt_verify L refreshToken (REFRESH_TOKEN_SECRET E) now = VOk data
            /\ get_prop data "username" = Some name)
  /\ (forall data name : jsval,
        isActive st refreshToken = true ->
        jwt_verify L refreshToken (REFRESH_TOKEN_SECRET E) now = VOk data ->
        get_prop data "username" = Some name ->
        snd (run L now (post_createtoken E st req))
        = Sent (json (VObj
            [("accessToken",
              VStr (jwt_sign L (VObj [("username", name)])
                      (ACCESS_TOKEN_SECRET E) (Some 15) now))]))).
Proof.
  cbv zeta. rewrite run_post_createtoken. cbv zeta. simpl snd. split.
  - destruct (isActive st (lookup "token" (body req))) eqn:Hact.
    + rewrite (isActive_not_null st _ Hact).
      destruct (jwt_verify L _ _ now) as [data|e].
      * destruct (get_prop data "username") as [name|] eqn:Hname.
        -- split; [| reflexivity]. intros _. split; [reflexivity |].
           exists data, name. now split.
        -- split; [discriminate |].
           intros (_ & data' & name & Hok & Hname').
           injection Hok as <-. rewrite Hname in Hname'. discriminate.
      * split; [simpl; discriminate |].
        intros (_ & data' & name & Hok & _). discriminate Hok.
    + split; [| intros [H _]; discriminate H].
      destruct (loose_null (lookup "token" (body req)));
        simpl; discriminate.
  - intros data name Hact Hok Hname.
    now rewrite (isActive_not_null st _ Hact), Hact, Hok, Hname.
Qed.

Lemma createtoken_200_iff_witness :
  isActive [Scenario.kyle_refresh] (VStr Scenario.kyle_refresh) = true
  /\ snd (run Wire.jwt 117
           (post_createtoken Wire.process_env [Scenario.kyle_refresh]
              (Scenario.with_token Scenario.kyle_refresh)))
     = Sent (json (VObj
         [("accessToken",
           VStr (jwt_sign Wire.jwt (VObj [("username", VStr "Kyle")])
                   (ACCESS_TOKEN_SECRET Wire.process_env) (Some 15) 117))])).
Proof.
  split; [vm_compute; reflexivity |].
  apply (proj2 (createtoken_200_iff Wire.process_env Wire.jwt 117
                  [Scenario.kyle_refresh]
                  (Scenario.with_token Scenario.kyle_refresh))
           Scenario.kyle (VStr "Kyle"));
    vm_compute; reflexivity.
Defined.

End RenewalFacts.

Module LogoutFacts.
Import Server StoreFacts.

Lemma revoke_not_string (st : list string) (v : jsval) :
  (forall R : string, v <> VStr R) -> revoke st v = st.
Proof.
  intros Hv. apply revoke_absent.
  destruct (isActive st v) eqn:Hact; [| reflexivity].
  destruct (RenewalFacts.isActive_string st v Hact) as [R ->].
  now destruct (Hv R).
Qed.

Lemma count_occ_revoke_other (st : list string) (v : jsval) (R : string) :
  v <> VStr R ->
  count_occ string_dec (revoke st v) R = count_occ string_dec st R.
Proof.
  intros Hv. induction st as [|token st IH]; simpl; [reflexivity |].
  destruct (strict_eq_str token v) eqn:Heq; simpl.
  - apply strict_eq_str_true in Heq.
    destruct (string_dec token R) as [->|_]; [contradiction | exact IH].
  - destruct (string_dec token R); now rewrite IH.
Qed.

Lemma isActive_count (st : list string) (R : string) :
  isActive st (VStr R) = negb (Nat.eqb (count_occ string_dec st R) 0).
Proof.
  induction st as [|token st IH]; simpl; [reflexivity |].
  destruct (string_dec token R) as [->|Hne].
  - now rewrite String.eqb_refl.
  - apply String.eqb_neq in Hne. now rewrite Hne.
Qed.

(** X9: a logout touches nothing but the copies of the token it names:
    every other token keeps the number of its entries, hence its status;
    and when the body has no [token], or one that is not a string, the
    list stays as it is. *)
Theorem logout_frame (st : list string) (req : request) :
  (forall R : string,
      lookup "token" (body req) <> VStr R ->
      count_occ string_dec (fst (delete_logout st req)) R
      = count_occ string_dec st R
      /\ isActive (fst (delete_logout st req)) (VStr R)
         = isActive st (VStr R))
  /\ ((forall R : string, lookup "token" (body req) <> VStr R) ->
      fst (delete_logout st req) = st).
Proof.
  unfold delete_logout. simpl fst. split.
  - intros R HR. split; [now apply count_occ_revoke_other |].
    rewrite !isActive_count. now rewrite count_occ_revoke_other.
  - apply revoke_not_string.
Qed.

Lemma logout_frame_witness :
  count_occ string_dec
    (fst (delete_logout ["a"; "b"; "a"]%string (Scenario.with_token "b")))
    "a" = 2%nat
  /\ fst (delete_logout ["a"; "b"; "a"]%string (Scenario.with_token "b"))
     = ["a"; "a"]%string
  /\ fst (delete_logout ["a"; "b"; "a"]%string (Scenario.with_body []))
     = ["a"; "b"; "a"]%string.
Proof.
  destruct (logout_frame ["a"; "b"; "a"]%string (Scenario.with_token "b"))
    as [Hother _].
  destruct (logout_frame ["a"; "b"; "a"]%string (Scenario.with_body []))
    as [_ Hnone].
  split; [apply (Hother "a"%string); discriminate |].
  split; [reflexivity |].
  apply Hnone. intros R. discriminate.
Defined.

(** X10: two logouts leave the same list in either order. *)
Theorem logout_commutes (st : list string) (req1 req2 : request) :
  fst (delete_logout (fst (delete_logout st req1)) req2)
  = fst (delete_logout (fst (delete_logout st req2)) req1).
Proof.
  unfold delete_logout. simpl fst. unfold revoke.
  induction st as [|token st IH]; simpl; [reflexivity |].
  destruct (strict_eq_str token (lookup "token" (body req1))) eqn:H1;
    destruct (strict_eq_str token (lookup "token" (body req2))) eqn:H2;
    simpl; rewrite ?H1, ?H2; simpl; now rewrite IH.
Qed.

End LogoutFacts.

(** ** Sequences of requests *)

Module AppFacts.
Import Server StoreFacts App.

Lemma handle_store (E : env) (L : JwtLib) (now : Z) (st : list string)
    (r : route) (req : request) :
  fst (run L now (handle E st r req))
  = match r with
    | GET_posts | POST_createtoken => st
    | POST_login => register st (issued E L now req)
    | DELETE_logout => revoke st (lookup "token" (body req))
    end.
Proof.
  destruct r; simpl handle.
  - now rewrite ServerFacts.run_bind.
  - now rewrite ServerFacts.run_post_login.
  - now rewrite RenewalFacts.run_post_createtoken.
  - reflexivity.
Qed.

Lemma In_revoke (st : list string) (v : jsval) (x : string) :
  In x (revoke st v) -> In x st.
Proof. unfold revoke. intros H. now apply filter_In in H. Qed.

Lemma isActive_In (st : list string) (R : string) :
  isActive st (VStr R) = true <-> In R st.
Proof.
  unfold isActive. rewrite existsb_exists. split.
  - intros (x & Hin & Heq). apply String.eqb_eq in Heq. now subst.
  - intros Hin. exists R. split; [exact Hin | apply String.eqb_refl].
Qed.

(** X11: right after a login, a renewal with the refresh token it
    returned always reaches [jwt.verify], which alone decides the answer:
    neither the 401 nor the "not a valid refresh token" 403 can come. *)
Theorem renew_after_login (E : env) (L : JwtLib) (now later : Z)
    (st : list string) (req : request) :
  let st1 := fst (run L now (post_login E st req)) in
  let R := issued E L now req in
  verify_calls L later (post_createtoken E st1 (Scenario.with_token R))
  = 1%nat
  /\ run L later (post_createtoken E st1 (Scenario.with_token R))
     = (st1,
        match jwt_verify L (VStr R) (REFRESH_TOKEN_SECRET E) later with
        | VErr _ =>
            Sent (send 403 "Error occured during verification of refresh token")
        | VOk data =>
            match get_prop data "username" with
            | None => Threw
            | Some name =>
                Sent (json (VObj
                  [("accessToken",
                    VStr (jwt_sign L (VObj [("username", name)])
                            (ACCESS_TOKEN_SECRET E) (Some 15) later))]))
            end
        end).
Proof.
  cbv zeta. rewrite ServerFacts.run_post_login. cbv zeta. simpl fst.
  fold (issued E L now req).
  assert (Hact : isActive (register st (issued E L now req))
                   (VStr (issued E L now req)) = true).
  { rewrite isActive_register, strict_eq_str_refl. apply orb_true_r. }
  split.
  - unfold post_createtoken. simpl lookup. simpl loose_null.
    rewrite Hact. simpl.
    destruct (jwt_verify L _ _ later) as [data|e]; [| reflexivity].
    now destruct (get_prop data "username").
  - rewrite RenewalFacts.run_post_createtoken. cbv zeta.
    simpl lookup. simpl loose_null. now rewrite Hact.
Qed.

(** X12: after a logout with a refresh token, a renewal with that token
    is answered 403 "not a valid refresh token" without any call of
    [jwt.verify], however many logins had put that token in the list and
    whatever other requests come in between, as long as none of them is
    a login. *)
Theorem renew_after_logout (E : env) (L : JwtLib) (now later : Z)
    (st : list string) (R : string)
    (between : list (Z * route * request)) :
  Forall (fun '(_, r, _) => r <> POST_login) between ->
  let st1 := fst (run L now
                    (handle E st DELETE_logout (Scenario.with_token R))) in
  let st2 := serve E L st1 between in
  verify_calls L later (post_createtoken E st2 (Scenario.with_token R))
  = 0%nat
  /\ run L later (post_createtoken E st2 (Scenario.with_token R))
     = (st2,
        Sent (send 403 "Refresh token that was sent is not a valid refresh token")).
Proof.
  intros Hbetween. cbv zeta. rewrite handle_store. simpl lookup.
  assert (Hgone : isActive (serve E L (revoke st (VStr R)) between)
                    (VStr R) = false).
  { pose proof (isActive_revoke st (VStr R)) as Hstart.
    revert Hstart. generalize (revoke st (VStr R)) as s.
    induction Hbetween as [|[[t r] q] rest Hr _ IH]; intros s Hs;
      simpl serve; [exact Hs |].
    apply IH. rewrite handle_store.
    destruct r; try exact Hs; [contradiction |].
    destruct (isActive (revoke s (lookup "token" (body q))) (VStr R))
      eqn:Hact; [| reflexivity].
    apply isActive_revoke_other in Hact. congruence. }
  split.
  - unfold post_createtoken. simpl lookup. simpl loose_null.
    now rewrite Hgone.
  - rewrite RenewalFacts.run_post_createtoken. cbv zeta.
    simpl lookup. simpl loose_null. now rewrite Hgone.
Qed.

Lemma renew_after_logout_witness :
  Forall (fun '(_, r, _) => r <> POST_login)
    [(110, GET_posts, Scenario.bearer Scenario.kyle_access);
     (111, POST_createtoken, Scenario.with_token "other")]
  /\ (let st1 :=
        fst (run Wire.jwt 105
               (handle Wire.process_env
                  [Scenario.kyle_refresh; "other"%string;
                   Scenario.kyle_refresh]
                  DELETE_logout
                  (Scenario.with_token Scenario.kyle_refresh))) in
      let st2 :=
        serve Wire.process_env Wire.jwt st1
          [(110, GET_posts, Scenario.bearer Scenario.kyle_access);
           (111, POST_createtoken, Scenario.with_token "other")] in
      verify_calls Wire.jwt 120
        (post_createtoken Wire.process_env st2
           (Scenario.with_token Scenario.kyle_refresh)) = 0%nat
      /\ run Wire.jwt 120
           (post_createtoken Wire.process_env st2
              (Scenario.with_token Scenario.kyle_refresh))
         = (st2,
            Sent (send 403 "Refresh token that was sent is not a valid refresh token"))).
Proof.
  assert (Hno : Forall (fun '(_, r, _) => r <> POST_login)
            [(110, GET_posts, Scenario.bearer Scenario.kyle_access);
             (111, POST_createtoken, Scenario.with_token "other")]).
  { repeat constructor; discriminate. }
  split; [exact Hno |].
  exact (renew_after_logout Wire.process_env Wire.jwt 105 120
           [Scenario.kyle_refresh; "other"%string; Scenario.kyle_refresh]
           Scenario.kyle_refresh _ Hno).
Defined.

(** X13: whatever requests are served, starting from the empty list of
    a fresh process, [refreshTokenList] only ever holds refresh tokens
    that a login of the sequence was given. *)
Theorem store_only_issued (E : env) (L : JwtLib)
    (trace : list (Z * route * request)) :
  forall R : string,
    In R (serve E L [] trace) ->
    exists (now : Z) (req : request),
      In (now, POST_login, req) trace /\ R = issued E L now req.
Proof.
  assert (Hgen : forall (st : list string) (R : string),
             In R (serve E L st trace) ->
             In R st
             \/ exists (now : Z) (req : request),
                  In (now, POST_login, req) trace
                  /\ R = issued E L now req).
  { induction trace as [|[[t r] q] rest IH]; intros st R; simpl serve.
    - now left.
    - intros Hin. apply IH in Hin. rewrite handle_store in Hin.
      destruct Hin as [Hin|(now & req & Hin & ->)].
      + destruct r.
        * now left.
        * unfold register in Hin. apply in_app_or in Hin as [Hin|Hin];
            [now left |].
          right. exists t, q. simpl in Hin.
          destruct Hin as [<-|[]]. split; [now left | reflexivity].
        * now left.
        * left. exact (In_revoke _ _ _ Hin).
      + right. exists now, req. split; [now right | reflexivity]. }
  intros R Hin. destruct (Hgen [] R Hin) as [[]|H]. exact H.
Qed.

Lemma store_only_issued_witness :
  In Scenario.kyle_refresh
    (serve Wire.process_env Wire.jwt []
       [(100, POST_login, Scenario.login_as "Kyle");
        (101, POST_login, Scenario.login_as "Jim");
        (102, DELETE_logout,
         Scenario.with_token
           (issued Wire.process_env Wire.jwt 101 (Scenario.login_as "Jim")))])
  /\ exists (now : Z) (req : request),
       In (now, POST_login, req)
         [(100, POST_login, Scenario.login_as "Kyle");
          (101, POST_login, Scenario.login_as "Jim");
          (102, DELETE_logout,
           Scenario.with_token
             (issued Wire.process_env Wire.jwt 101
                (Scenario.login_as "Jim")))]
       /\ Scenario.kyle_refresh = issued Wire.process_env Wire.jwt now req.
Proof.
  assert (Hin : In Scenario.kyle_refresh
    (serve Wire.process_env Wire.jwt []
       [(100, POST_login, Scenario.login_as "Kyle");
        (101, POST_login, Scenario.login_as "Jim");
        (102, DELETE_logout,
         Scenario.with_token
           (issued Wire.process_env Wire.jwt 101
              (Scenario.login_as "Jim")))])).
  { vm_compute. left. reflexivity. }
  split; [exact Hin |].
  exact (store_only_issued Wire.process_env Wire.jwt _
           Scenario.kyle_refresh Hin).
Defined.

(** X14: without a login in between, no request makes a token active:
    what is active after the sequence was active before it. *)
Theorem only_login_activates (E : env) (L : JwtLib) (st : list string)
    (trace : list (Z * route * request)) (v : jsval) :
  Forall (fun '(_, r, _) => r <> POST_login) trace ->
  isActive (serve E L st trace) v = true ->
  isActive st v = true.
Proof.
  intros Htrace. revert st.
  induction Htrace as [|[[t r] q] rest Hr _ IH]; intros st; simpl serve;
    [trivial |].
  intros Hact. apply IH in Hact. rewrite handle_store in Hact.
  destruct r; try exact Hact; [contradiction |].
  exact (isActive_revoke_other _ _ _ Hact).
Qed.

Lemma only_login_activates_witness :
  Forall (fun '(_, r, _) => r <> POST_login)
    [(110, DELETE_logout, Scenario.with_token "a");
     (111, POST_createtoken, Scenario.with_token "b")]
  /\ isActive
       (serve Wire.process_env Wire.jwt ["a"; "b"]%string
          [(110, DELETE_logout, Scenario.with_token "a");
           (111, POST_createtoken, Scenario.with_token "b")])
       (VStr "b") = true
  /\ isActive ["a"; "b"]%string (VStr "b") = true.
Proof.
  assert (Hno : Forall (fun '(_, r, _) => r <> POST_login)
            [(110, DELETE_logout, Scenario.with_token "a");
             (111, POST_createtoken, Scenario.with_token "b")]).
  { repeat constructor; discriminate. }
  assert (Hact : isActive
       (serve Wire.process_env Wire.jwt ["a"; "b"]%string
          [(110, DELETE_logout, Scenario.with_token "a");
           (111, POST_createtoken, Scenario.with_token "b")])
       (VStr "b") = true) by (vm_compute; reflexivity).
  split; [exact Hno |]. split; [exact Hact |].
  exact (only_login_activates Wire.process_env Wire.jwt _ _ _ Hno Hact).
Defined.

End AppFacts.

(** ** Further properties of the variant *)

Module VariantFacts.

(** X15: the test [token === null] of the variant's middleware never
    holds, so its 400 answer is never sent and no response at all comes
    from it; [jwt.verify] is called once for every request, and a request
    without Authorization header has [undefined] verified. *)
Theorem variant_guard_always_verifies (E : env) (L : JwtLib) (now : Z)
    (req : request) :
  verify_calls L now (Variant.authenticateToken E req) = 1%nat
  /\ (forall r : response,
        run L now (Variant.authenticateToken E req) <> Sent r)
  /\ (authorization req = None ->
      run L now (Variant.authenticateToken E req)
      = match jwt_verify L VUndefined (ACCESS_TOKEN_SECRET E) now with
        | VErr _ => Threw
        | VOk _ => Pending
        end).
Proof.
  unfold Variant.authenticateToken. cbv zeta.
  rewrite ServerFacts.header_token_not_null. simpl.
  split; [| split].
  - now destruct (jwt_verify L _ _ now).
  - intros r. destruct (jwt_verify L _ _ now); discriminate.
  - intros Hnone. rewrite Hnone. simpl header_token.
    now destruct (jwt_verify L _ _ now).
Qed.

Lemma variant_guard_always_verifies_witness :
  authorization Scenario.no_header = None
  /\ run Wire.jwt 100
       (Variant.authenticateToken Wire.process_env Scenario.no_header)
     = Threw.
Proof.
  split; [reflexivity |].
  destruct (variant_guard_always_verifies Wire.process_env Wire.jwt 100
              Scenario.no_header) as (_ & _ & Hnone).
  rewrite (Hnone eq_refl). reflexivity.
Defined.

End VariantFacts.

(** ** The routes of the variant, for every request *)

Module VariantRoutes.

(** The login route of the variant signs [{name}] with the access secret
    and no expiry, and answers with that token alone. *)
Lemma variant_login_general (E : env) (L : JwtLib) (now : Z)
    (req : request) :
  run L now (Variant.post_login E req)
  = Sent (json (VObj
      [("accessToken",
        VStr (jwt_sign L (VObj [("name", lookup "username" (body req))])
                (ACCESS_TOKEN_SECRET E) None now))]))
  /\ verify_calls L now (Variant.post_login E req) = 0%nat.
Proof. split; reflexivity. Qed.

(** GET /post of the variant answers every request with every post. *)
Lemma variant_post_general (req : request) :
  Variant.get_post req
  = Sent (json (VArr [post_json (mkPost "Kyle" "Post 1");
                      post_json (mkPost "Jim" "Post 2")])).
Proof. reflexivity. Qed.

End VariantRoutes.
